(** * Sourcegraph GraphQL gateway (extension/src/graphql.ts)

    A shallow embedding of the GraphQL client of the TypeScript language
    extension: the generic executor [requestGraphQL] and the four domain
    operations [search], [resolveRev], [resolveRepository] and
    [queryExtensions], followed by the properties of the module.

    Promises are modelled by their settlement ([Resolved] or [Rejected])
    together with the ordered list of effects performed on the way (spans
    opened and closed, requests handed to the transport, bodies decoded). *)

From Stdlib Require Import String Ascii List Bool NArith ZArith DecimalString.
Import ListNotations.
Open Scope string_scope.

(** ** JavaScript values *)

(** An IEEE double, kept symbolically: the module never computes with the
    numbers of a payload, it only tests them for truthiness. *)
Inductive number : Type :=
| NaN
| Infinity (negative : bool)
| Finite (negative : bool) (mantissa : N) (exponent : Z).

#[local] Set Warnings "-register-all".

(** What [JSON.parse] can produce, plus [undefined] (the value of an absent
    property) and built-in function objects (reached through a prototype). *)
Inductive value : Type :=
| VUndefined
| VNull
| VBool (b : bool)
| VNumber (n : number)
| VString (s : string)
| VArray (items : list value)
| VObject (props : list (string * value))
| VBuiltin (name : string).

Definition number_falsy (n : number) : bool :=
  match n with
  | NaN => true
  | Infinity _ => false
  | Finite _ m _ => N.eqb m 0
  end.

(** ToBoolean. *)
Definition truthy (v : value) : bool :=
  match v with
  | VUndefined | VNull => false
  | VBool b => b
  | VNumber n => negb (number_falsy n)
  | VString s => negb (s =? "")
  | VArray _ | VObject _ | VBuiltin _ => true
  end.

Definition nullish (v : value) : bool :=
  match v with
  | VUndefined | VNull => true
  | _ => false
  end.

(** Own properties of an object, in insertion order; the first binding of a
    key is the property. *)
Fixpoint own_property {A : Type} (props : list (string * A)) (key : string) : option A :=
  match props with
  | [] => None
  | (k, v) :: rest => if k =? key then Some v else own_property rest key
  end.

(** [obj.key = v] on a plain object: an existing property keeps its place,
    a new one is appended. *)
Fixpoint set_property {A : Type} (props : list (string * A)) (key : string) (v : A)
  : list (string * A) :=
  match props with
  | [] => [(key, v)]
  | (k, x) :: rest =>
      if k =? key then (k, v) :: rest else (k, x) :: set_property rest key v
  end.

(** ** Errors and settlements *)

Inductive JsError : Type :=
| Error (message : string)
    (* [new Error(message)], the only error this module constructs *)
| TypeError_nullish_read (base : value) (property : string)
    (* raised by the engine for [base.property] when [base] is null or undefined *)
| TypeError_invalid_URL
    (* raised by the [URL] constructor *)
| Thrown (name message : string).
    (* any other error a collaborator rejects with: network failure, JSON syntax error *)

Inductive Outcome (A : Type) : Type :=
| Resolved (a : A)
| Rejected (e : JsError).
Arguments Resolved {A} a.
Arguments Rejected {A} e.

(** The property read [v.p].  Exact for the names this module reads from a
    payload (search, results, repository, commit, oid, name,
    extensionRegistry, extensions, nodes): of these the prototypes of
    decoded values define only [String.prototype.search], and a function
    object carries its [name]. *)
Definition member (v : value) (p : string) : Outcome value :=
  match v with
  | VUndefined | VNull => Rejected (TypeError_nullish_read v p)
  | VObject props =>
      Resolved (match own_property props p with Some x => x | None => VUndefined end)
  | VString _ => Resolved (if p =? "search" then VBuiltin "search" else VUndefined)
  | VBuiltin f => Resolved (if p =? "name" then VString f else VUndefined)
  | VBool _ | VNumber _ | VArray _ => Resolved VUndefined
  end.

(** ** URLs (WHATWG URL records) *)

Inductive URLPath : Type :=
| OpaquePath (s : string)
| PathSegments (segments : list string).

Record URL : Type := mkURL {
  scheme : string;
  username : string;
  password : string;
  host : option string;
  port : option N;
  path : URLPath;
  query : option string;
  fragment : option string
}.

Definition decimal (n : N) : string := NilZero.string_of_uint (N.to_uint n).

Definition serialize_path (p : URLPath) : string :=
  match p with
  | OpaquePath s => s
  | PathSegments segs => String.concat "" (map (fun s => "/" ++ s) segs)
  end.

(** The URL serializer: [url.href], which is also [String(url)]. *)
Definition href (u : URL) : string :=
  scheme u ++ ":"
  ++ match host u with
     | Some h =>
         "//"
         ++ (if (username u =? "") && (password u =? "") then ""
             else username u
                  ++ (if password u =? "" then "" else ":" ++ password u)
                  ++ "@")
         ++ h
         ++ match port u with Some p => ":" ++ decimal p | None => "" end
     | None =>
         match path u with
         | PathSegments ("" :: _ :: _) => "/."
         | _ => ""
         end
     end
  ++ serialize_path (path u)
  ++ match query u with Some q => "?" ++ q | None => "" end
  ++ match fragment u with Some f => "#" ++ f | None => "" end.

Definition is_ascii_alpha (c : ascii) : bool :=
  let n := N_of_ascii c in
  ((65 <=? n) && (n <=? 90) || (97 <=? n) && (n <=? 122))%N.

Definition normalized_windows_drive_letter (s : string) : bool :=
  match s with
  | String c (String ":" EmptyString) => is_ascii_alpha c
  | _ => false
  end.

(** [new URL(input, base)] for an [input] that is an absolute-path reference
    "/s1/.../sn", given by its segments (no dot segments, nothing to
    percent-encode, no Windows drive letter).  The parser takes scheme and
    authority from [base] and replaces path, query and fragment; a base
    with an opaque path cannot be a base; a [file:] base keeps its drive
    letter. *)
Definition new_URL_absolute_path (segments : list string) (base : URL) : Outcome URL :=
  match path base with
  | OpaquePath _ => Rejected TypeError_invalid_URL
  | PathSegments base_segments =>
      if scheme base =? "file" then
        let drive :=
          match base_segments with
          | d :: _ => if normalized_windows_drive_letter d then [d] else []
          | [] => []
          end in
        Resolved (mkURL "file" "" "" (host base) None
                        (PathSegments (drive ++ segments)) None None)
      else
        Resolved (mkURL (scheme base) (username base) (password base)
                        (host base) (port base)
                        (PathSegments segments) None None)
  end.

(** ** The data model of the module *)

Record SourcegraphInstance : Type := {
  instanceUrl : URL;
  accessToken : option string
}.

Record GraphQLError : Type := {
  message : string;
  error_path : string
}.

(** [{ data?: any; errors?: { message: string; path: string }[] }]: an
    absent [data] reads as [VUndefined]. *)
Record Envelope : Type := {
  data : value;
  errors : option (list GraphQLError)
}.

(** Handles of the tracing library (opentracing). *)
Inductive Tracer : Type :=
| TracerRef (id : N).

Inductive Span : Type :=
| SpanRef (id : N)
| ChildOf (operationName : string) (parent : Span).

Record TracingContext : Type := {
  span : Span;
  tracer : Tracer
}.

(** The arguments of one [tracedFetch] call. *)
Record Request : Type := {
  url : URL;
  method : string;
  headers : list (string * string);
  body : string;
  request_span : Span;
  request_tracer : Tracer
}.

(** The response object of the transport: [json] is what [response.json()]
    settles with when it is called. *)
Record Response : Type := {
  ok : bool;
  status : N;
  statusText : string;
  json : Outcome Envelope
}.

(** ** Asynchronous computations *)

Inductive Event : Type :=
| SpanStarted (s : Span)
| SpanFinished (s : Span)
| Fetched (r : Request)
| BodyDecoded.

Record Async (A : Type) : Type := mkAsync {
  effects : list Event;
  settled : Outcome A
}.
Arguments mkAsync {A} effects settled.
Arguments effects {A} a.
Arguments settled {A} a.

Definition ret {A : Type} (a : A) : Async A := mkAsync [] (Resolved a).

Definition throw {A : Type} (e : JsError) : Async A := mkAsync [] (Rejected e).

Definition settle {A : Type} (o : Outcome A) : Async A := mkAsync [] o.

Definition emit (ev : Event) : Async unit := mkAsync [ev] (Resolved tt).

Definition bind {A B : Type} (m : Async A) (k : A -> Async B) : Async B :=
  match settled m with
  | Resolved a => mkAsync (effects m ++ effects (k a)) (settled (k a))
  | Rejected e => mkAsync (effects m) (Rejected e)
  end.

(** [try { m } finally { cleanup }] *)
Definition finally {A : Type} (m : Async A) (cleanup : Async unit) : Async A :=
  match settled cleanup with
  | Resolved _ => mkAsync (effects m ++ effects cleanup) (settled m)
  | Rejected e => mkAsync (effects m ++ effects cleanup) (Rejected e)
  end.

Declare Scope async_scope.
Delimit Scope async_scope with async.
Notation "x <- m ;; k" := (bind m (fun x => k))
  (at level 61, m at next level, right associativity) : async_scope.
Notation "m ;; k" := (bind m (fun _ => k))
  (at level 61, right associativity) : async_scope.
Open Scope async_scope.

(** ** The query documents

    The [gql] tag (tagged-template-noop) returns its template unchanged, so
    each document is the literal of the source, with its line breaks and
    indentation. *)

Definition search_query : string :=
  "
                query Search($query: String!) {
                    search(query: $query) {
                        results {
                            results {
                                ... on FileMatch {
                                    repository {
                                        name
                                    }
                                }
                            }
                        }
                    }
                }
            ".

Definition resolveRev_query : string :=
  "
                query ResolveRev($repoName: String!, $rev: String!) {
                    repository(name: $repoName) {
                        commit(rev: $rev) {
                            oid
                        }
                    }
                }
            ".

Definition resolveRepository_query : string :=
  "
                query($cloneUrl: String!) {
                    repository(cloneURL: $cloneUrl) {
                        name
                    }
                }
            ".

Definition queryExtensions_query : string :=
  "
                query ExtensionManifests {
                    extensionRegistry {
                        extensions {
                            nodes {
                                extensionID
                                manifest {
                                    raw
                                }
                            }
                        }
                    }
                }
            ".

(** ** The gateway *)

Definition newline : string := String (ascii_of_N 10) EmptyString.

Section Gateway.

(** The HTTP transport of [./tracing]: what [tracedFetch(url, init)]
    settles with. *)
Variable tracedFetch : Request -> Outcome Response.

(** [JSON.stringify] on request payloads. *)
Variable JSON_stringify : value -> string.

Definition await_fetch (r : Request) : Async Response :=
  emit (Fetched r) ;; settle (tracedFetch r).

Definition await_json (r : Response) : Async Envelope :=
  emit BodyDecoded ;; settle (json r).

(** Modelled from the spec: [tracePromise] of [./tracing], which is not
    part of this file.  It starts a child span for the named operation,
    runs the executor with it, and closes the span when the executor's
    promise settles, whatever the outcome; the settlement passes through. *)
Definition tracePromise {A : Type} (operationName : string) (tracer : Tracer)
    (span : Span) (executor : Span -> Async A) : Async A :=
  let child := ChildOf operationName span in
  emit (SpanStarted child) ;;
  finally (executor child) (emit (SpanFinished child)).

Definition requestGraphQL (query : string) (variables : value)
    (instance : SourcegraphInstance) (ctx : TracingContext) : Async Envelope :=
  let variables :=
    match variables with VUndefined => VObject [] | _ => variables end in
  let headers :=
    [("Accept", "application/json"); ("Content-Type", "application/json")] in
  let headers :=
    match accessToken instance with
    | Some token =>
        if negb (token =? "")
        then set_property headers "Authorization" ("token " ++ token)
        else headers
    | None => headers
    end in
  endpoint <- settle (new_URL_absolute_path [".api"; "graphql"] (instanceUrl instance)) ;;
  response <- await_fetch
    {| url := endpoint;
       method := "POST";
       headers := headers;
       body := JSON_stringify
                 (VObject [("query", VString query); ("variables", variables)]);
       request_span := span ctx;
       request_tracer := tracer ctx |} ;;
  if negb (ok response) then
    throw (Error (decimal (status response) ++ " " ++ statusText response))
  else
    await_json response.

(** The guard each operation repeats after its request:
    [if (errors && errors.length > 0) throw new Error('GraphQL Error:' + ...)]. *)
Definition throw_on_errors (errors : option (list GraphQLError)) : Async unit :=
  match errors with
  | Some es =>
      if (0 <? length es)%nat then
        throw (Error ("GraphQL Error:" ++ String.concat newline (map message es)))
      else ret tt
  | None => ret tt
  end.

Definition search (query : string) (sgInstance : SourcegraphInstance)
    (ctx : TracingContext) : Async value :=
  tracePromise "Sourcegraph search" (tracer ctx) (span ctx) (fun span =>
    envelope <- requestGraphQL search_query
                  (VObject [("query", VString query)])
                  sgInstance {| span := span; tracer := tracer ctx |} ;;
    throw_on_errors (errors envelope) ;;
    s <- settle (member (data envelope) "search") ;;
    r <- settle (member s "results") ;;
    settle (member r "results")).

Definition resolveRev (repoName rev : string) (sgInstance : SourcegraphInstance)
    (ctx : TracingContext) : Async value :=
  tracePromise "Resolve rev" (tracer ctx) (span ctx) (fun span =>
    envelope <- requestGraphQL resolveRev_query
                  (VObject [("repoName", VString repoName); ("rev", VString rev)])
                  sgInstance {| span := span; tracer := tracer ctx |} ;;
    throw_on_errors (errors envelope) ;;
    repository <- settle (member (data envelope) "repository") ;;
    commit <- settle (member repository "commit") ;;
    settle (member commit "oid")).

Definition resolveRepository (cloneUrl : string) (sgInstance : SourcegraphInstance)
    (ctx : TracingContext) : Async value :=
  tracePromise "Resolve clone URL" (tracer ctx) (span ctx) (fun span =>
    envelope <- requestGraphQL resolveRepository_query
                  (VObject [("cloneUrl", VString cloneUrl)])
                  sgInstance {| span := span; tracer := tracer ctx |} ;;
    throw_on_errors (errors envelope) ;;
    found <- settle (member (data envelope) "repository") ;;
    if negb (truthy found) then
      throw (Error ("No repository found for clone URL " ++ cloneUrl
                    ++ " on instance " ++ href (instanceUrl sgInstance)))
    else
      repository <- settle (member (data envelope) "repository") ;;
      settle (member repository "name")).

Definition queryExtensions (sgInstance : SourcegraphInstance)
    (ctx : TracingContext) : Async value :=
  tracePromise "Query extensions" (tracer ctx) (span ctx) (fun span =>
    envelope <- requestGraphQL queryExtensions_query
                  (VObject [])
                  sgInstance {| span := span; tracer := tracer ctx |} ;;
    throw_on_errors (errors envelope) ;;
    registry <- settle (member (data envelope) "extensionRegistry") ;;
    extensions <- settle (member registry "extensions") ;;
    settle (member extensions "nodes")).

End Gateway.

(** ** Vocabulary of the specification *)

(** The four domain operations with their arguments. *)
Inductive Operation : Type :=
| Search (query : string)
| ResolveRev (repoName rev : string)
| ResolveRepository (cloneUrl : string)
| QueryExtensions.

Definition run (tracedFetch : Request -> Outcome Response)
    (JSON_stringify : value -> string) (op : Operation)
    (sgInstance : SourcegraphInstance) (ctx : TracingContext) : Async value :=
  match op with
  | Search query => search tracedFetch JSON_stringify query sgInstance ctx
  | ResolveRev repoName rev => resolveRev tracedFetch JSON_stringify repoName rev sgInstance ctx
  | ResolveRepository cloneUrl => resolveRepository tracedFetch JSON_stringify cloneUrl sgInstance ctx
  | QueryExtensions => queryExtensions tracedFetch JSON_stringify sgInstance ctx
  end.

(** The field of [data] each operation returns (section 4.2 of the
    specification). *)
Definition extraction_path (op : Operation) : list string :=
  match op with
  | Search _ => ["search"; "results"; "results"]
  | ResolveRev _ _ => ["repository"; "commit"; "oid"]
  | ResolveRepository _ => ["repository"; "name"]
  | QueryExtensions => ["extensionRegistry"; "extensions"; "nodes"]
  end.

Definition is_resolveRepository (op : Operation) : bool :=
  match op with
  | ResolveRepository _ => true
  | _ => false
  end.

(** The field of a JSON document at a path of object keys, when every key
    on the way is present. *)
Fixpoint field_at (v : value) (keys : list string) : option value :=
  match keys with
  | [] => Some v
  | k :: rest =>
      match v with
      | VObject props =>
          match own_property props k with
          | Some x => field_at x rest
          | None => None
          end
      | _ => None
      end
  end.

(** The field at [keys] is null or absent: it is present with value null
    (or undefined), or its parent is an object without the last key. *)
Inductive missing_at (v : value) : list string -> value -> Prop :=
| missing_null keys x :
    field_at v keys = Some x -> nullish x = true -> missing_at v keys x
| missing_absent keys k props :
    field_at v keys = Some (VObject props) -> own_property props k = None ->
    missing_at v (keys ++ [k])%list VUndefined.

(** The envelope reports no error: [errors] is absent or empty. *)
Definition no_errors (e : Envelope) : Prop :=
  errors e = None \/ errors e = Some [].

Definition contains (needle haystack : string) : Prop :=
  exists before after, haystack = before ++ needle ++ after.

(** The transport answered a request of the computation with [response]. *)
Definition responds (tracedFetch : Request -> Outcome Response) {A : Type}
    (m : Async A) (response : Response) : Prop :=
  exists r, In (Fetched r) (effects m) /\ tracedFetch r = Resolved response.

(** The requests a computation handed to the transport, in order. *)
Fixpoint requests (evs : list Event) : list Request :=
  match evs with
  | [] => []
  | Fetched r :: rest => r :: requests rest
  | _ :: rest => requests rest
  end.

(** A succession of property reads [v.p1.p2...]. *)
Fixpoint read_path (v : value) (ps : list string) : Outcome value :=
  match ps with
  | [] => Resolved v
  | p :: rest =>
      match member v p with
      | Resolved x => read_path x rest
      | Rejected e => Rejected e
      end
  end.

Definition graphql_error (es : list GraphQLError) : JsError :=
  Error ("GraphQL Error:" ++ String.concat newline (map message es)).

Definition transport_error (response : Response) : JsError :=
  Error (decimal (status response) ++ " " ++ statusText response).

Definition not_found_error (cloneUrl : string) (sgInstance : SourcegraphInstance) : JsError :=
  Error ("No repository found for clone URL " ++ cloneUrl
         ++ " on instance " ++ href (instanceUrl sgInstance)).

(** What an operation does with the [data] of an envelope without errors. *)
Definition extract (op : Operation) (sgInstance : SourcegraphInstance) (d : value)
  : Outcome value :=
  match op with
  | ResolveRepository cloneUrl =>
      match member d "repository" with
      | Resolved found =>
          if truthy found then read_path d (extraction_path op)
          else Rejected (not_found_error cloneUrl sgInstance)
      | Rejected e => Rejected e
      end
  | _ => read_path d (extraction_path op)
  end.

(** The argument [requestGraphQL] hands to the transport once the endpoint
    is known. *)
Definition request_of (JSON_stringify : value -> string) (query : string)
    (variables : value) (instance : SourcegraphInstance) (ctx : TracingContext)
    (endpoint : URL) : Request :=
  {| url := endpoint;
     method := "POST";
     headers :=
       match accessToken instance with
       | Some token =>
           if negb (token =? "")
           then [("Accept", "application/json"); ("Content-Type", "application/json");
                 ("Authorization", "token " ++ token)]
           else [("Accept", "application/json"); ("Content-Type", "application/json")]
       | None => [("Accept", "application/json"); ("Content-Type", "application/json")]
       end;
     body := JSON_stringify
               (VObject [("query", VString query);
                         ("variables",
                          match variables with VUndefined => VObject [] | _ => variables end)]);
     request_span := span ctx;
     request_tracer := tracer ctx |}.

(** A URL reduced to scheme and authority: no path, query or fragment. *)
Definition without_path (u : URL) : URL :=
  mkURL (scheme u) (username u) (password u) (host u) (port u) (PathSegments []) None None.

(** What an operation settles with once the transport has answered. *)
Definition settlement_for (op : Operation) (sgInstance : SourcegraphInstance)
    (response : Response) : Outcome value :=
  if ok response then
    match json response with
    | Resolved envelope =>
        match errors envelope with
        | Some (e :: es) => Rejected (graphql_error (e :: es))
        | _ => extract op sgInstance (data envelope)
        end
    | Rejected e => Rejected e
    end
  else Rejected (transport_error response).

(** ** Sample collaborators and payloads *)

(** https://sourcegraph.com/ *)
Definition sourcegraph_com : URL :=
  mkURL "https" "" "" (Some "sourcegraph.com") None (PathSegments [""]) None None.

(** https://example.com/sg, an instance served under a path prefix. *)
Definition example_com_sg : URL :=
  mkURL "https" "" "" (Some "example.com") None (PathSegments ["sg"]) None None.

Definition anonymous (u : URL) : SourcegraphInstance :=
  {| instanceUrl := u; accessToken := None |}.

Definition with_token (u : URL) (token : string) : SourcegraphInstance :=
  {| instanceUrl := u; accessToken := Some token |}.

Definition root_context : TracingContext :=
  {| span := SpanRef 1; tracer := TracerRef 0 |}.

(** A transport that answers every request with the same response. *)
Definition answering (response : Response) : Request -> Outcome Response :=
  fun _ => Resolved response.

(** A serializer that keeps only the kind of the payload. *)
Definition kind_of (v : value) : string :=
  match v with
  | VObject _ => "object"
  | VArray _ => "array"
  | _ => "primitive"
  end.

Definition ok_response (envelope : Envelope) : Response :=
  {| ok := true; status := 200; statusText := "OK"; json := Resolved envelope |}.

Definition not_found_response : Response :=
  {| ok := false; status := 404; statusText := "Not Found";
     json := Rejected (Thrown "SyntaxError" "Unexpected token < in JSON") |}.

(** [{"data":{"search":{"results":{"results":[{"repository":{"name":"github.com/a/b"}}]}}}}] *)
Definition search_results : value :=
  VArray [VObject [("repository", VObject [("name", VString "github.com/a/b")])]].

Definition search_envelope : Envelope :=
  {| data := VObject [("search", VObject [("results", VObject [("results", search_results)])])];
     errors := None |}.

(** [{"data":null,"errors":[{"message":"first",...},{"message":"second",...}]}] *)
Definition failed_envelope : Envelope :=
  {| data := VNull;
     errors := Some [ {| message := "first"; error_path := "a" |};
                      {| message := "second"; error_path := "b" |} ] |}.

(** [{"data":{"repository":null}}] *)
Definition null_repository_envelope : Envelope :=
  {| data := VObject [("repository", VNull)]; errors := None |}.

(** [{"data":{"repository":""}}] *)
Definition empty_repository_envelope : Envelope :=
  {| data := VObject [("repository", VString "")]; errors := Some [] |}.

(** [{"data":null}] *)
Definition null_data_envelope : Envelope :=
  {| data := VNull; errors := None |}.

(** ** What each operation asks *)

(** The query document of an operation. *)
Definition document (op : Operation) : string :=
  match op with
  | Search _ => search_query
  | ResolveRev _ _ => resolveRev_query
  | ResolveRepository _ => resolveRepository_query
  | QueryExtensions => queryExtensions_query
  end.

(** The variables object an operation passes to the executor. *)
Definition variables_of (op : Operation) : value :=
  match op with
  | Search query => VObject [("query", VString query)]
  | ResolveRev repoName rev =>
      VObject [("repoName", VString repoName); ("rev", VString rev)]
  | ResolveRepository cloneUrl => VObject [("cloneUrl", VString cloneUrl)]
  | QueryExtensions => VObject []
  end.

(** The name of the span an operation is traced under. *)
Definition operation_name (op : Operation) : string :=
  match op with
  | Search _ => "Sourcegraph search"
  | ResolveRev _ _ => "Resolve rev"
  | ResolveRepository _ => "Resolve clone URL"
  | QueryExtensions => "Query extensions"
  end.

(** The events of a log that involve the transport: requests and body
    decodes, without the spans around them. *)
Definition exchanges (evs : list Event) : list Event :=
  filter (fun ev => match ev with Fetched _ | BodyDecoded => true | _ => false end) evs.

(** A transport that fails every request with the same error. *)
Definition failing (e : JsError) : Request -> Outcome Response :=
  fun _ => Rejected e.

(** mailto:admin@example.com, a URL with an opaque path. *)
Definition mailto_admin : URL :=
  mkURL "mailto" "" "" None None (OpaquePath "admin@example.com") None None.

(** A 200 response whose body is not JSON. *)
Definition garbled_response : Response :=
  {| ok := true; status := 200; statusText := "OK";
     json := Rejected (Thrown "SyntaxError" "Unexpected token < in JSON") |}.

(** The request of [resolveRev("github.com/a/b", "HEAD")] on
    https://sourcegraph.com/ with the token "secret". *)
Definition resolveRev_request : Request :=
  request_of kind_of resolveRev_query
    (VObject [("repoName", VString "github.com/a/b"); ("rev", VString "HEAD")])
    (with_token sourcegraph_com "secret")
    {| span := ChildOf "Resolve rev" (span root_context); tracer := tracer root_context |}
    (mkURL "https" "" "" (Some "sourcegraph.com") None
           (PathSegments [".api"; "graphql"]) None None).

(** One call of each operation. *)
Definition sample_operations : list Operation :=
  [Search "foo"; ResolveRev "github.com/a/b" "HEAD";
   ResolveRepository "https://x/y.git"; QueryExtensions].

(** An answer that holds the field of every operation. *)
Definition full_envelope : Envelope :=
  {| data :=
       VObject
         [("search", VObject [("results", VObject [("results", search_results)])]);
          ("repository",
           VObject [("commit", VObject [("oid", VString "abc123")]);
                    ("name", VString "github.com/a/b")]);
          ("extensionRegistry", VObject [("extensions", VObject [("nodes", VArray [])])])];
     errors := Some [] |}.

(** An answer in which the last field of every extraction path is absent. *)
Definition leafless_envelope : Envelope :=
  {| data :=
       VObject
         [("search", VObject [("results", VObject [])]);
          ("repository", VObject [("commit", VObject [])]);
          ("extensionRegistry", VObject [("extensions", VObject [])])];
     errors := None |}.

(** [{"data":42}] *)
Definition number_data_envelope : Envelope :=
  {| data := VNumber (Finite false 42 0); errors := None |}.

(** ** Laws of asynchronous computations *)

Lemma effects_bind {A B : Type} (m : Async A) (k : A -> Async B) :
  effects (bind m k)
  = (effects m ++ match settled m with
                  | Resolved a => effects (k a)
                  | Rejected _ => []
                  end)%list.
Proof.
  unfold bind. destruct (settled m); simpl; auto using app_nil_r.
Qed.

Lemma settled_bind {A B : Type} (m : Async A) (k : A -> Async B) :
  settled (bind m k)
  = match settled m with
    | Resolved a => settled (k a)
    | Rejected e => Rejected e
    end.
Proof.
  unfold bind. destruct (settled m); reflexivity.
Qed.

Lemma effects_tracePromise {A : Type} name t s (executor : Span -> Async A) :
  effects (tracePromise name t s executor)
  = (SpanStarted (ChildOf name s)
     :: effects (executor (ChildOf name s)) ++ [SpanFinished (ChildOf name s)])%list.
Proof. reflexivity. Qed.

Lemma settled_tracePromise {A : Type} name t s (executor : Span -> Async A) :
  settled (tracePromise name t s executor) = settled (executor (ChildOf name s)).
Proof. reflexivity. Qed.

(** ** The executor, case by case *)

Lemma requestGraphQL_cases tf js q v i c :
  requestGraphQL tf js q v i c
  = match new_URL_absolute_path [".api"; "graphql"] (instanceUrl i) with
    | Rejected e => throw e
    | Resolved endpoint =>
        let r := request_of js q v i c endpoint in
        match tf r with
        | Rejected e => mkAsync [Fetched r] (Rejected e)
        | Resolved response =>
            if ok response
            then mkAsync [Fetched r; BodyDecoded] (json response)
            else mkAsync [Fetched r] (Rejected (transport_error response))
        end
    end.
Proof.
  unfold requestGraphQL, request_of.
  destruct (new_URL_absolute_path _ _) as [endpoint|e]; [|reflexivity].
  unfold bind at 1. cbn [settle settled effects app].
  destruct (accessToken i) as [token|]; [destruct (negb (token =? ""))|];
    cbn [set_property String.eqb Ascii.eqb Bool.eqb];
    unfold bind, await_fetch, await_json, throw, emit, settle, bind, transport_error;
    cbn [settled effects app];
    match goal with |- context [tf ?r] => destruct (tf r) as [response|e] end;
    cbn [settled effects app]; try reflexivity;
    destruct (ok response); reflexivity.
Qed.

(** A request of the executor is the one it built for its endpoint. *)
Lemma requestGraphQL_fetched tf js q v i c r :
  In (Fetched r) (effects (requestGraphQL tf js q v i c)) ->
  exists endpoint,
    new_URL_absolute_path [".api"; "graphql"] (instanceUrl i) = Resolved endpoint
    /\ r = request_of js q v i c endpoint.
Proof.
  rewrite requestGraphQL_cases.
  destruct (new_URL_absolute_path _ _) as [endpoint|e]; cbn; [|tauto].
  intros Hin. exists endpoint. split; [reflexivity|].
  destruct (tf _) as [response|e]; [destruct (ok response)|]; cbn in Hin;
    repeat (destruct Hin as [Hin|Hin]; [congruence || discriminate|]);
    contradiction.
Qed.

Lemma requestGraphQL_responds tf js q v i c response :
  responds tf (requestGraphQL tf js q v i c) response ->
  exists r,
    requestGraphQL tf js q v i c
    = if ok response
      then mkAsync [Fetched r; BodyDecoded] (json response)
      else mkAsync [Fetched r] (Rejected (transport_error response)).
Proof.
  intros [r [Hin Hr]].
  destruct (requestGraphQL_fetched _ _ _ _ _ _ _ Hin) as [endpoint [Hurl ->]].
  exists (request_of js q v i c endpoint).
  rewrite requestGraphQL_cases, Hurl. cbn zeta. rewrite Hr. reflexivity.
Qed.

(** ** The operations, reduced to the executor *)

Lemma read_path_3 d p1 p2 p3 :
  settled (a <- settle (member d p1) ;; b <- settle (member a p2) ;; settle (member b p3))
  = read_path d [p1; p2; p3]
  /\ effects (a <- settle (member d p1) ;; b <- settle (member a p2) ;; settle (member b p3))
     = [].
Proof.
  unfold bind, settle; cbn.
  destruct (member d p1) as [a|]; cbn; [|tauto].
  destruct (member a p2) as [b|]; cbn; [|tauto].
  destruct (member b p3); cbn; tauto.
Qed.

Lemma found_or_not_found d cloneUrl i :
  let k :=
    found <- settle (member d "repository") ;;
    if negb (truthy found) then throw (not_found_error cloneUrl i)
    else repository <- settle (member d "repository") ;;
         settle (member repository "name") in
  settled k = extract (ResolveRepository cloneUrl) i d /\ effects k = [].
Proof.
  cbn zeta. rewrite effects_bind, settled_bind. cbn [settle settled effects extract].
  destruct (member d "repository") as [found|] eqn:Hfound; [|tauto].
  destruct (truthy found); cbn [negb throw settled effects app]; [|tauto].
  rewrite effects_bind, settled_bind. cbn [settle settled effects extraction_path read_path].
  rewrite Hfound. destruct (member found "name"); tauto.
Qed.

(** The common shape of the four operations: a traced request, the errors
    guard, then an extraction without effects. *)
Lemma traced_shape name t s (request : Span -> Async Envelope)
    (k : Envelope -> Async value) (f : Envelope -> Outcome value) :
  (forall envelope, settled (k envelope) = f envelope /\ effects (k envelope) = []) ->
  let child := ChildOf name s in
  let m := tracePromise name t s (fun span =>
             envelope <- request span ;; throw_on_errors (errors envelope) ;; k envelope) in
  effects m = (SpanStarted child :: effects (request child) ++ [SpanFinished child])%list
  /\ settled m
     = match settled (request child) with
       | Resolved envelope =>
           match errors envelope with
           | Some (e :: es) => Rejected (graphql_error (e :: es))
           | _ => f envelope
           end
       | Rejected e => Rejected e
       end.
Proof.
  intros Hk. cbn zeta.
  rewrite effects_tracePromise, settled_tracePromise, effects_bind, settled_bind.
  destruct (settled (request (ChildOf name s))) as [envelope|e];
    [|rewrite app_nil_r; split; reflexivity].
  rewrite effects_bind, settled_bind. destruct (Hk envelope) as [-> ->].
  unfold throw_on_errors.
  destruct (errors envelope) as [[|e es]|]; cbn; rewrite app_nil_r; split; reflexivity.
Qed.

Lemma run_shape tf js op i c :
  exists name q v,
    let child := ChildOf name (span c) in
    let inner := requestGraphQL tf js q v i {| span := child; tracer := tracer c |} in
    effects (run tf js op i c)
    = (SpanStarted child :: effects inner ++ [SpanFinished child])%list
    /\ settled (run tf js op i c)
       = match settled inner with
         | Resolved envelope =>
             match errors envelope with
             | Some (e :: es) => Rejected (graphql_error (e :: es))
             | _ => extract op i (data envelope)
             end
         | Rejected e => Rejected e
         end.
Proof.
  destruct op as [query|repoName rev|cloneUrl|]; cbn [run].
  - exists "Sourcegraph search", search_query, (VObject [("query", VString query)]).
    apply (traced_shape _ _ _
             (fun s => requestGraphQL tf js _ _ i {| span := s; tracer := tracer c |})
             _ (fun e => extract (Search query) i (data e))).
    intros envelope. apply read_path_3.
  - exists "Resolve rev", resolveRev_query,
      (VObject [("repoName", VString repoName); ("rev", VString rev)]).
    apply (traced_shape _ _ _
             (fun s => requestGraphQL tf js _ _ i {| span := s; tracer := tracer c |})
             _ (fun e => extract (ResolveRev repoName rev) i (data e))).
    intros envelope. apply read_path_3.
  - exists "Resolve clone URL", resolveRepository_query,
      (VObject [("cloneUrl", VString cloneUrl)]).
    apply (traced_shape _ _ _
             (fun s => requestGraphQL tf js _ _ i {| span := s; tracer := tracer c |})
             _ (fun e => extract (ResolveRepository cloneUrl) i (data e))).
    intros envelope. apply found_or_not_found.
  - exists "Query extensions", queryExtensions_query, (VObject []).
    apply (traced_shape _ _ _
             (fun s => requestGraphQL tf js _ _ i {| span := s; tracer := tracer c |})
             _ (fun e => extract QueryExtensions i (data e))).
    intros envelope. apply read_path_3.
Qed.

(** Once the transport has answered, an operation settles as
    [settlement_for] prescribes, decodes the body exactly when the status
    is successful, and has made one request. *)
Lemma run_responds tf js op i c response :
  responds tf (run tf js op i c) response ->
  settled (run tf js op i c) = settlement_for op i response
  /\ (In BodyDecoded (effects (run tf js op i c)) <-> ok response = true)
  /\ exists r, requests (effects (run tf js op i c)) = [r].
Proof.
  intros [r [Hin Hr]].
  destruct (run_shape tf js op i c) as (name & q & v & He & Hs). cbn zeta in He, Hs.
  rewrite He in Hin |- *. rewrite Hs. clear He Hs.
  destruct Hin as [Hin|Hin]; [discriminate|].
  apply in_app_or in Hin. destruct Hin as [Hin|[Hin|[]]]; [|discriminate].
  assert (Hresp : responds tf (requestGraphQL tf js q v i
                   {| span := ChildOf name (span c); tracer := tracer c |}) response).
  { exists r. split; assumption. }
  destruct (requestGraphQL_responds _ _ _ _ _ _ _ Hresp) as [r' ->].
  unfold settlement_for. destruct (ok response); cbn.
  - repeat split; eauto.
  - repeat split; eauto; try discriminate.
    intros [H|[H|[H|[]]]]; discriminate.
Qed.

(** ** Property reads against JSON fields *)

Lemma read_path_app d ps qs :
  read_path d (ps ++ qs)
  = match read_path d ps with
    | Resolved x => read_path x qs
    | Rejected e => Rejected e
    end.
Proof.
  revert d. induction ps as [|p ps IH]; intros d; cbn; [reflexivity|].
  destruct (member d p); [apply IH|reflexivity].
Qed.

Lemma field_at_read_path keys : forall d x,
  field_at d keys = Some x -> read_path d keys = Resolved x.
Proof.
  induction keys as [|k keys IH]; intros d x; cbn.
  - congruence.
  - destruct d; try discriminate. cbn.
    destruct (own_property props k) as [y|]; [apply IH|discriminate].
Qed.

Lemma member_nullish x k :
  nullish x = true -> member x k = Rejected (TypeError_nullish_read x k).
Proof. destruct x; cbn; congruence. Qed.

Lemma missing_read d keys base k rest :
  missing_at d keys base ->
  read_path d (keys ++ k :: rest) = Rejected (TypeError_nullish_read base k).
Proof.
  intros [keys' x Hx Hnull | keys' k0 props Hparent Habsent].
  - rewrite read_path_app, (field_at_read_path _ _ _ Hx). cbn.
    rewrite member_nullish by assumption. reflexivity.
  - rewrite <- app_assoc, read_path_app, (field_at_read_path _ _ _ Hparent).
    cbn. rewrite Habsent. reflexivity.
Qed.

Lemma read_path_never_Error ps : forall d msg, read_path d ps <> Rejected (Error msg).
Proof.
  induction ps as [|p ps IH]; intros d msg; cbn; [discriminate|].
  destruct (member d p) as [x|e] eqn:Hm; [apply IH|].
  destruct d; cbn in Hm; congruence.
Qed.

Lemma no_errors_settlement op i response envelope :
  ok response = true -> json response = Resolved envelope -> no_errors envelope ->
  settlement_for op i response = extract op i (data envelope).
Proof.
  intros Hok Hjson Herr. unfold settlement_for. rewrite Hok, Hjson.
  destruct Herr as [-> | ->]; reflexivity.
Qed.

(** ** A transport that answers *)

Lemma usable_endpoint i segments :
  path (instanceUrl i) = PathSegments segments ->
  exists endpoint,
    new_URL_absolute_path [".api"; "graphql"] (instanceUrl i) = Resolved endpoint.
Proof.
  intros Hpath. unfold new_URL_absolute_path. rewrite Hpath.
  destruct (scheme (instanceUrl i) =? "file"); eauto.
Qed.

Lemma executor_fetches tf js q v i c segments :
  path (instanceUrl i) = PathSegments segments ->
  exists r, In (Fetched r) (effects (requestGraphQL tf js q v i c)).
Proof.
  intros Hpath. destruct (usable_endpoint _ _ Hpath) as [endpoint Hurl].
  exists (request_of js q v i c endpoint).
  rewrite requestGraphQL_cases, Hurl. cbn zeta.
  destruct (tf _) as [response|e]; [destruct (ok response)|]; left; reflexivity.
Qed.

Lemma executor_answered tf js q v i c response segments :
  (forall r, tf r = Resolved response) ->
  path (instanceUrl i) = PathSegments segments ->
  responds tf (requestGraphQL tf js q v i c) response.
Proof.
  intros Htf Hpath. destruct (executor_fetches tf js q v i c _ Hpath) as [r Hin].
  exists r. split; [exact Hin | apply Htf].
Qed.

Lemma operation_fetches tf js op i c segments :
  path (instanceUrl i) = PathSegments segments ->
  exists r, In (Fetched r) (effects (run tf js op i c)).
Proof.
  intros Hpath. destruct (run_shape tf js op i c) as (name & q & v & He & _).
  cbn zeta in He.
  destruct (executor_fetches tf js q v i
              {| span := ChildOf name (span c); tracer := tracer c |} _ Hpath) as [r Hin].
  exists r. rewrite He. right. apply in_or_app. left. exact Hin.
Qed.

Lemma operation_answered tf js op i c response segments :
  (forall r, tf r = Resolved response) ->
  path (instanceUrl i) = PathSegments segments ->
  responds tf (run tf js op i c) response.
Proof.
  intros Htf Hpath. destruct (operation_fetches tf js op i c _ Hpath) as [r Hin].
  exists r. split; [exact Hin | apply Htf].
Qed.

(** ** Properties of the gateway *)

Ltac for_each tac := repeat (apply Forall_cons; [tac|]); apply Forall_nil.

Ltac answered :=
  match goal with
  | |- responds _ _ _ => eexists; split; [cbv; eauto 6 | reflexivity]
  end.

(** C1. When the envelope carries a non-empty [errors] sequence, each of the
    four operations rejects with an [Error] whose message is the literal
    "GraphQL Error:" followed by the messages of the errors joined by
    newlines in the order received, whatever [data] is: the guard runs
    before any field of [data] is read. *)
Theorem graphql_errors_reject tf js op i c response envelope es segments :
  (forall r, tf r = Resolved response) ->
  path (instanceUrl i) = PathSegments segments ->
  ok response = true ->
  json response = Resolved envelope ->
  errors envelope = Some es ->
  es <> [] ->
  settled (run tf js op i c)
  = Rejected (Error ("GraphQL Error:" ++ String.concat newline (map message es))).
Proof.
  intros Htf Hpath Hok Hjson Herr Hne.
  pose proof (operation_answered tf js op i c _ _ Htf Hpath) as Hresp.
  destruct (run_responds _ _ _ _ _ _ Hresp) as [-> _].
  unfold settlement_for. rewrite Hok, Hjson, Herr.
  destruct es as [|e es]; [contradiction|reflexivity].
Qed.

Lemma graphql_errors_reject_witness :
  Forall (fun op =>
            settled (run (answering (ok_response failed_envelope)) kind_of op
                         (anonymous sourcegraph_com) root_context)
            = Rejected (Error ("GraphQL Error:first" ++ newline ++ "second")))
         sample_operations.
Proof.
  for_each
    ltac:(apply (graphql_errors_reject _ _ _ _ _ (ok_response failed_envelope)
                   failed_envelope
                   [ {| message := "first"; error_path := "a" |};
                     {| message := "second"; error_path := "b" |} ] [""]);
          solve [ reflexivity | discriminate | intros r; reflexivity ]).
Defined.

(** C2. When the response is not [ok], [requestGraphQL] and every operation
    reject with an [Error] whose message is the status code, a space and
    the status text; the body is never decoded. *)
Theorem transport_error_reject tf js response i segments :
  (forall r, tf r = Resolved response) ->
  path (instanceUrl i) = PathSegments segments ->
  ok response = false ->
  (forall q v c,
      settled (requestGraphQL tf js q v i c)
      = Rejected (Error (decimal (status response) ++ " " ++ statusText response))
      /\ ~ In BodyDecoded (effects (requestGraphQL tf js q v i c)))
  /\ (forall op c,
      settled (run tf js op i c)
      = Rejected (Error (decimal (status response) ++ " " ++ statusText response))
      /\ ~ In BodyDecoded (effects (run tf js op i c))).
Proof.
  intros Htf Hpath Hok. split.
  - intros q v c.
    pose proof (executor_answered tf js q v i c _ _ Htf Hpath) as Hresp.
    destruct (requestGraphQL_responds _ _ _ _ _ _ _ Hresp) as [r ->].
    rewrite Hok. cbn. split; [reflexivity|].
    intros [H|[]]; discriminate.
  - intros op c.
    pose proof (operation_answered tf js op i c _ _ Htf Hpath) as Hresp.
    destruct (run_responds _ _ _ _ _ _ Hresp) as (-> & Hdec & _).
    unfold settlement_for. rewrite Hok. split; [reflexivity|].
    rewrite Hdec, Hok. discriminate.
Qed.

Lemma transport_error_reject_witness :
  settled (requestGraphQL (answering not_found_response) kind_of
             "query { currentUser }" VUndefined (anonymous sourcegraph_com) root_context)
  = Rejected (Error "404 Not Found")
  /\ Forall (fun op =>
               settled (run (answering not_found_response) kind_of op
                            (anonymous sourcegraph_com) root_context)
               = Rejected (Error "404 Not Found"))
            sample_operations.
Proof.
  destruct (transport_error_reject (answering not_found_response) kind_of
              not_found_response (anonymous sourcegraph_com) [""]
              (fun _ => eq_refl) eq_refl eq_refl) as [Hexec Hops].
  split; [apply Hexec|]. for_each ltac:(apply Hops).
Defined.

(** C7. On a successful status [requestGraphQL] decodes the body and
    resolves with the envelope as decoded, whatever its [data] and [errors]
    are: a non-empty [errors] sequence does not make the executor reject. *)
Theorem requestGraphQL_verbatim tf js q v i c response envelope :
  responds tf (requestGraphQL tf js q v i c) response ->
  ok response = true ->
  json response = Resolved envelope ->
  settled (requestGraphQL tf js q v i c) = Resolved envelope
  /\ In BodyDecoded (effects (requestGraphQL tf js q v i c)).
Proof.
  intros Hresp Hok Hjson.
  destruct (requestGraphQL_responds _ _ _ _ _ _ _ Hresp) as [r ->].
  rewrite Hok. cbn. split; [assumption|auto].
Qed.

Lemma requestGraphQL_verbatim_witness :
  settled (requestGraphQL (answering (ok_response failed_envelope)) kind_of
             "query { currentUser }" VUndefined (anonymous sourcegraph_com) root_context)
  = Resolved failed_envelope.
Proof.
  apply (requestGraphQL_verbatim _ _ _ _ _ _ (ok_response failed_envelope) failed_envelope);
    [answered | reflexivity | reflexivity].
Defined.

Lemma extract_field op i d v :
  field_at d (extraction_path op) = Some v -> extract op i d = Resolved v.
Proof.
  intros Hfield. pose proof (field_at_read_path _ _ _ Hfield) as Hread.
  destruct op; cbn [extract]; try exact Hread.
  cbn in Hfield, Hread |- *. destruct d; try discriminate. cbn in Hread |- *.
  destruct (own_property props "repository") as [repository|]; [|discriminate].
  destruct repository; try discriminate. exact Hread.
Qed.

(** C4, as stated, fails: for [{"data":{"repository":null}}], a successful
    status and no errors, [resolveRev] does not resolve at all; it rejects
    with the engine's error for reading [commit] of null. *)
Lemma extraction_needs_the_field :
  ok (ok_response null_repository_envelope) = true
  /\ errors null_repository_envelope = None
  /\ settled (run (answering (ok_response null_repository_envelope)) kind_of
                 (ResolveRev "github.com/a/b" "HEAD") (anonymous sourcegraph_com)
                 root_context)
     = Rejected (TypeError_nullish_read VNull "commit")
  /\ forall v,
       settled (run (answering (ok_response null_repository_envelope)) kind_of
                    (ResolveRev "github.com/a/b" "HEAD") (anonymous sourcegraph_com)
                    root_context)
       <> Resolved v.
Proof. repeat split. discriminate. Qed.

(** C4, amended. On a successful status with [errors] absent or empty, when
    [data] holds the field at the operation's extraction path, each
    operation resolves with that field, as it is:
    data.search.results.results, data.repository.commit.oid,
    data.repository.name and data.extensionRegistry.extensions.nodes. *)
Theorem extraction_verbatim tf js op i c response envelope v segments :
  (forall r, tf r = Resolved response) ->
  path (instanceUrl i) = PathSegments segments ->
  ok response = true ->
  json response = Resolved envelope ->
  no_errors envelope ->
  field_at (data envelope) (extraction_path op) = Some v ->
  settled (run tf js op i c) = Resolved v.
Proof.
  intros Htf Hpath Hok Hjson Herr Hfield.
  pose proof (operation_answered tf js op i c _ _ Htf Hpath) as Hresp.
  destruct (run_responds _ _ _ _ _ _ Hresp) as [-> _].
  rewrite (no_errors_settlement _ _ _ _ Hok Hjson Herr).
  apply extract_field, Hfield.
Qed.

Lemma extraction_verbatim_witness :
  Forall (fun expected =>
            settled (run (answering (ok_response full_envelope)) kind_of (fst expected)
                         (anonymous sourcegraph_com) root_context)
            = Resolved (snd expected))
         [(Search "foo", search_results);
          (ResolveRev "github.com/a/b" "HEAD", VString "abc123");
          (ResolveRepository "https://x/y.git", VString "github.com/a/b");
          (QueryExtensions, VArray [])].
Proof.
  for_each
    ltac:(cbn [fst snd];
          apply (extraction_verbatim _ _ _ _ _ (ok_response full_envelope)
                   full_envelope _ [""]);
          solve [ reflexivity | right; reflexivity | intros r; reflexivity ]).
Defined.

Lemma extract_never_Error op i d msg :
  is_resolveRepository op = false -> extract op i d <> Rejected (Error msg).
Proof.
  destruct op; cbn [is_resolveRepository extract]; intros H;
    try discriminate; apply read_path_never_Error.
Qed.

Lemma append_empty_r s : s ++ "" = s.
Proof. induction s as [|c s IH]; cbn; congruence. Qed.

Lemma append_assoc a b c : (a ++ b) ++ c = a ++ b ++ c.
Proof. induction a as [|x a IH]; cbn; congruence. Qed.

Lemma contains_middle before needle after : contains needle (before ++ needle ++ after).
Proof. exists before, after. reflexivity. Qed.

Lemma contains_end before needle : contains needle (before ++ needle).
Proof. exists before, "". now rewrite append_empty_r. Qed.

(** C3. When [data.repository] is null, with no errors and a successful
    status, [resolveRepository] rejects with the Not Found error, whose
    message contains the clone URL and the instance URL; none of the other
    three operations rejects with an [Error] of this module on such a
    response. *)
Theorem not_found_reject tf js i c response envelope :
  ok response = true ->
  json response = Resolved envelope ->
  no_errors envelope ->
  field_at (data envelope) ["repository"] = Some VNull ->
  (forall cloneUrl,
      responds tf (run tf js (ResolveRepository cloneUrl) i c) response ->
      exists msg,
        settled (run tf js (ResolveRepository cloneUrl) i c) = Rejected (Error msg)
        /\ msg = "No repository found for clone URL " ++ cloneUrl
                 ++ " on instance " ++ href (instanceUrl i)
        /\ contains cloneUrl msg
        /\ contains (href (instanceUrl i)) msg)
  /\ (forall op,
      is_resolveRepository op = false ->
      responds tf (run tf js op i c) response ->
      forall msg, settled (run tf js op i c) <> Rejected (Error msg)).
Proof.
  intros Hok Hjson Herr Hnull. split.
  - intros cloneUrl Hresp. eexists. split; [|split; [reflexivity|]].
    + destruct (run_responds _ _ _ _ _ _ Hresp) as [-> _].
      rewrite (no_errors_settlement _ _ _ _ Hok Hjson Herr).
      cbn in Hnull |- *. destruct (data envelope); try discriminate. cbn.
      destruct (own_property props "repository") as [x|]; [|discriminate].
      injection Hnull as ->. reflexivity.
    + split; [apply contains_middle|].
      rewrite <- (append_assoc cloneUrl), <- append_assoc.
      apply contains_end.
  - intros op Hop Hresp msg.
    destruct (run_responds _ _ _ _ _ _ Hresp) as [-> _].
    rewrite (no_errors_settlement _ _ _ _ Hok Hjson Herr).
    apply extract_never_Error, Hop.
Qed.

Lemma not_found_reject_witness :
  settled (run (answering (ok_response null_repository_envelope)) kind_of
               (ResolveRepository "https://x/y.git") (anonymous sourcegraph_com) root_context)
  = Rejected (Error ("No repository found for clone URL https://x/y.git"
                     ++ " on instance https://sourcegraph.com/"))
  /\ forall msg,
       settled (run (answering (ok_response null_repository_envelope)) kind_of
                    (ResolveRev "github.com/a/b" "HEAD") (anonymous sourcegraph_com)
                    root_context)
       <> Rejected (Error msg).
Proof.
  destruct (not_found_reject (answering (ok_response null_repository_envelope)) kind_of
              (anonymous sourcegraph_com) root_context
              (ok_response null_repository_envelope) null_repository_envelope
              eq_refl eq_refl (or_introl eq_refl) eq_refl) as [Hfound Hothers].
  split.
  - destruct (Hfound "https://x/y.git") as (msg & Hsettled & -> & _); [answered|].
    exact Hsettled.
  - apply Hothers; [reflexivity | answered].
Defined.

(** C8. [search], [resolveRev] and [queryExtensions] read their extraction
    path without any guard: when, with no errors and a successful status,
    a field on the way (or [data] itself) is null or absent, the operation
    rejects with the engine's error for reading the next property of null
    or undefined, not with an error of this module. *)
Theorem extraction_unguarded tf js op i c response envelope before k after base segments :
  is_resolveRepository op = false ->
  (forall r, tf r = Resolved response) ->
  path (instanceUrl i) = PathSegments segments ->
  ok response = true ->
  json response = Resolved envelope ->
  no_errors envelope ->
  extraction_path op = (before ++ k :: after)%list ->
  missing_at (data envelope) before base ->
  settled (run tf js op i c) = Rejected (TypeError_nullish_read base k).
Proof.
  intros Hop Htf Hpath Hok Hjson Herr Hkeys Hmissing.
  pose proof (operation_answered tf js op i c _ _ Htf Hpath) as Hresp.
  destruct (run_responds _ _ _ _ _ _ Hresp) as [-> _].
  rewrite (no_errors_settlement _ _ _ _ Hok Hjson Herr).
  destruct op; try discriminate Hop; cbn [extract];
    rewrite Hkeys; apply missing_read, Hmissing.
Qed.

Lemma extraction_unguarded_witness :
  settled (run (answering (ok_response null_repository_envelope)) kind_of
               (Search "foo") (anonymous sourcegraph_com) root_context)
  = Rejected (TypeError_nullish_read VUndefined "results")
  /\ settled (run (answering (ok_response null_repository_envelope)) kind_of
                 (ResolveRev "github.com/a/b" "HEAD") (anonymous sourcegraph_com)
                 root_context)
     = Rejected (TypeError_nullish_read VNull "commit")
  /\ settled (run (answering (ok_response null_repository_envelope)) kind_of
                 QueryExtensions (anonymous sourcegraph_com) root_context)
     = Rejected (TypeError_nullish_read VUndefined "extensions").
Proof.
  split; [|split].
  - apply (extraction_unguarded _ _ (Search "foo") _ _
             (ok_response null_repository_envelope) null_repository_envelope
             ["search"] "results" ["results"] VUndefined [""]);
      try solve [ reflexivity | left; reflexivity | intros r; reflexivity ].
    apply (missing_absent _ [] "search" [("repository", VNull)]); reflexivity.
  - apply (extraction_unguarded _ _ (ResolveRev "github.com/a/b" "HEAD") _ _
             (ok_response null_repository_envelope) null_repository_envelope
             ["repository"] "commit" ["oid"] VNull [""]);
      solve [ reflexivity | left; reflexivity | intros r; reflexivity
            | apply missing_null; reflexivity ].
  - apply (extraction_unguarded _ _ QueryExtensions _ _
             (ok_response null_repository_envelope) null_repository_envelope
             ["extensionRegistry"] "extensions" ["nodes"] VUndefined [""]);
      try solve [ reflexivity | left; reflexivity | intros r; reflexivity ].
    apply (missing_absent _ [] "extensionRegistry" [("repository", VNull)]); reflexivity.
Defined.

(** C10, as stated, fails twice: for [{"data":{"repository":""},"errors":[]}]
    the repository field is present and not null, and for [{"data":42}]
    [data] is not an object; [resolveRepository] rejects with the Not Found
    error on both. *)
Lemma not_found_on_falsy_repository :
  (settled (run (answering (ok_response empty_repository_envelope)) kind_of
                (ResolveRepository "https://x/y.git") (anonymous sourcegraph_com)
                root_context)
   = Rejected (not_found_error "https://x/y.git" (anonymous sourcegraph_com))
   /\ field_at (data empty_repository_envelope) ["repository"] = Some (VString "")
   /\ nullish (VString "") = false)
  /\ (settled (run (answering (ok_response number_data_envelope)) kind_of
                   (ResolveRepository "https://x/y.git") (anonymous sourcegraph_com)
                   root_context)
      = Rejected (not_found_error "https://x/y.git" (anonymous sourcegraph_com))
      /\ data number_data_envelope = VNumber (Finite false 42 0)).
Proof. repeat split. Qed.

Lemma member_rejects d p e : member d p = Rejected e -> e = TypeError_nullish_read d p.
Proof. destruct d; cbn; congruence. Qed.

Lemma member_resolves d p x : member d p = Resolved x -> nullish d = false.
Proof. destruct d; cbn; congruence. Qed.

Lemma transport_error_is_not_not_found response cloneUrl i :
  @Rejected value (transport_error response) <> Rejected (not_found_error cloneUrl i).
Proof.
  unfold transport_error, not_found_error, decimal. intros H. injection H as H.
  destruct (N.to_uint (status response)); cbn in H; discriminate.
Qed.

Lemma graphql_error_is_not_not_found es cloneUrl i :
  @Rejected value (graphql_error es) <> Rejected (not_found_error cloneUrl i).
Proof.
  unfold graphql_error, not_found_error. intros H. injection H as H.
  cbn in H. discriminate.
Qed.

(** C10, amended. Once the transport has answered and the body has decoded
    to an envelope, [resolveRepository] rejects with the Not Found error
    only when the status is successful, [errors] is absent or empty, [data]
    is neither null nor undefined and [data.repository] reads as a falsy
    value; with a successful status and no errors, when [data] is null or
    absent it rejects with the engine's error for reading [repository] of
    null or undefined, before the Not Found test. *)
Theorem not_found_needs_data tf js cloneUrl i c response envelope segments :
  (forall r, tf r = Resolved response) ->
  path (instanceUrl i) = PathSegments segments ->
  json response = Resolved envelope ->
  (settled (run tf js (ResolveRepository cloneUrl) i c)
   = Rejected (not_found_error cloneUrl i) ->
   ok response = true
   /\ no_errors envelope
   /\ nullish (data envelope) = false
   /\ exists found,
        member (data envelope) "repository" = Resolved found
        /\ truthy found = false)
  /\ (ok response = true ->
      no_errors envelope ->
      nullish (data envelope) = true ->
      settled (run tf js (ResolveRepository cloneUrl) i c)
      = Rejected (TypeError_nullish_read (data envelope) "repository")).
Proof.
  intros Htf Hpath Hjson.
  pose proof (operation_answered tf js (ResolveRepository cloneUrl) i c _ _ Htf Hpath)
    as Hresp.
  destruct (run_responds _ _ _ _ _ _ Hresp) as [-> _].
  split.
  - unfold settlement_for. rewrite Hjson.
    destruct (ok response).
    + assert (Hextract :
                extract (ResolveRepository cloneUrl) i (data envelope)
                = Rejected (not_found_error cloneUrl i) ->
                nullish (data envelope) = false
                /\ exists found,
                     member (data envelope) "repository" = Resolved found
                     /\ truthy found = false).
      { cbn [extract].
        destruct (member (data envelope) "repository") as [found|e] eqn:Hm.
        - destruct (truthy found) eqn:Ht.
          + intros H. exfalso. exact (read_path_never_Error _ _ _ H).
          + intros _. split; [exact (member_resolves _ _ _ Hm)|]. eauto.
        - apply member_rejects in Hm. subst e. discriminate. }
      destruct (errors envelope) as [[|e es]|] eqn:Herr.
      * intros H. split; [reflexivity|]. split; [right; exact Herr|]. auto.
      * intros H. exfalso. exact (graphql_error_is_not_not_found _ _ _ H).
      * intros H. split; [reflexivity|]. split; [left; exact Herr|]. auto.
    + intros H. exfalso. exact (transport_error_is_not_not_found _ _ _ H).
  - intros Hok Herr Hnull.
    rewrite (no_errors_settlement _ _ _ _ Hok Hjson Herr). cbn [extract].
    rewrite member_nullish by assumption. reflexivity.
Qed.

Lemma not_found_needs_data_witness :
  settled (run (answering (ok_response null_data_envelope)) kind_of
               (ResolveRepository "https://x/y.git") (anonymous sourcegraph_com) root_context)
  = Rejected (TypeError_nullish_read VNull "repository").
Proof.
  destruct (not_found_needs_data (answering (ok_response null_data_envelope)) kind_of
              "https://x/y.git" (anonymous sourcegraph_com) root_context
              (ok_response null_data_envelope) null_data_envelope [""]
              (fun _ => eq_refl) eq_refl eq_refl) as [_ Hnull].
  apply Hnull; [reflexivity | left; reflexivity | reflexivity].
Defined.

(** ** The outgoing request *)

Lemma requestGraphQL_requests tf js q v i c endpoint :
  new_URL_absolute_path [".api"; "graphql"] (instanceUrl i) = Resolved endpoint ->
  requests (effects (requestGraphQL tf js q v i c)) = [request_of js q v i c endpoint].
Proof.
  intros Hurl. rewrite requestGraphQL_cases, Hurl. cbn zeta.
  destruct (tf _) as [response|e]; [destruct (ok response)|]; reflexivity.
Qed.

Lemma href_endpoint u :
  href (mkURL (scheme u) (username u) (password u) (host u) (port u)
              (PathSegments [".api"; "graphql"]) None None)
  = href (without_path u) ++ "/.api/graphql".
Proof.
  unfold href, without_path. cbn.
  destruct (host u) as [h|]; cbn;
    repeat (progress (rewrite ?append_assoc, ?append_empty_r; cbn)); reflexivity.
Qed.

(** C5, as stated, fails: for the instance https://example.com/sg the one
    request goes to https://example.com/.api/graphql, which is not the
    instance URL followed by /.api/graphql. *)
Lemma endpoint_drops_instance_path :
  exists r,
    requests (effects (requestGraphQL (answering not_found_response) kind_of
                         "query { currentUser }" VUndefined
                         (anonymous example_com_sg) root_context)) = [r]
    /\ href (instanceUrl (anonymous example_com_sg)) = "https://example.com/sg"
    /\ href (url r) = "https://example.com/.api/graphql"
    /\ href (url r) <> href (instanceUrl (anonymous example_com_sg)) ++ "/.api/graphql".
Proof.
  eexists. repeat split. discriminate.
Qed.

(** C5, amended. For an instance URL that can serve as a base (its path is
    not opaque) and is not a [file:] URL, [requestGraphQL] makes one
    request: a POST to the instance URL's scheme, credentials, host and
    port with the path /.api/graphql and no query or fragment, the path,
    query and fragment of the instance URL being dropped; its body is the
    JSON text of the object with [query] and [variables] (an omitted
    [variables] being the empty object), and its headers carry Accept and
    Content-Type, both application/json. *)
Theorem requestGraphQL_request tf js q v i c segments :
  path (instanceUrl i) = PathSegments segments ->
  scheme (instanceUrl i) <> "file" ->
  exists r,
    requests (effects (requestGraphQL tf js q v i c)) = [r]
    /\ url r = mkURL (scheme (instanceUrl i)) (username (instanceUrl i))
                     (password (instanceUrl i)) (host (instanceUrl i))
                     (port (instanceUrl i)) (PathSegments [".api"; "graphql"]) None None
    /\ href (url r) = href (without_path (instanceUrl i)) ++ "/.api/graphql"
    /\ method r = "POST"
    /\ body r = js (VObject [("query", VString q);
                             ("variables",
                              match v with VUndefined => VObject [] | _ => v end)])
    /\ own_property (headers r) "Accept" = Some "application/json"
    /\ own_property (headers r) "Content-Type" = Some "application/json".
Proof.
  intros Hpath Hscheme. apply String.eqb_neq in Hscheme.
  eexists. split.
  - apply requestGraphQL_requests. unfold new_URL_absolute_path.
    rewrite Hpath, Hscheme. reflexivity.
  - cbn [request_of url method body headers]. split; [reflexivity|].
    split; [apply href_endpoint|]. split; [reflexivity|]. split; [reflexivity|].
    destruct (accessToken i) as [token|]; [destruct (negb (token =? ""))|];
      split; reflexivity.
Qed.

Lemma requestGraphQL_request_witness :
  exists r,
    requests (effects (requestGraphQL (answering not_found_response) kind_of
                         "query { currentUser }" VUndefined
                         (anonymous example_com_sg) root_context)) = [r]
    /\ href (url r) = "https://example.com/.api/graphql"
    /\ method r = "POST"
    /\ body r = kind_of (VObject [("query", VString "query { currentUser }");
                                  ("variables", VObject [])]).
Proof.
  destruct (requestGraphQL_request (answering not_found_response) kind_of
              "query { currentUser }" VUndefined (anonymous example_com_sg) root_context
              ["sg"] eq_refl) as (r & Hreq & _ & Hhref & Hmethod & Hbody & _).
  - discriminate.
  - exists r. repeat split; assumption.
Defined.

(** C6, as stated, fails: a descriptor that supplies the credential "" (the
    empty string) makes the request without any Authorization header. *)
Lemma empty_credential_sends_no_header :
  exists r,
    requests (effects (requestGraphQL (answering not_found_response) kind_of
                         "query { currentUser }" VUndefined
                         (with_token sourcegraph_com "") root_context)) = [r]
    /\ accessToken (with_token sourcegraph_com "") = Some ""
    /\ own_property (headers r) "Authorization" = None
    /\ own_property (headers r) "Authorization" <> Some ("token " ++ "").
Proof.
  eexists. repeat split. discriminate.
Qed.

(** C6, amended. Every request carries [Authorization: token <credential>]
    when the descriptor supplies a non-empty credential, and no
    Authorization header when the credential is absent or empty. *)
Theorem authorization_header tf js q v i c r :
  In (Fetched r) (effects (requestGraphQL tf js q v i c)) ->
  own_property (headers r) "Authorization"
  = match accessToken i with
    | Some token => if token =? "" then None else Some ("token " ++ token)
    | None => None
    end.
Proof.
  intros Hin. apply requestGraphQL_fetched in Hin. destruct Hin as (endpoint & _ & ->).
  cbn [request_of headers].
  destruct (accessToken i) as [token|]; [destruct (token =? "")|]; reflexivity.
Qed.

Lemma authorization_header_witness :
  own_property
    (headers (request_of kind_of "query { currentUser }" VUndefined
                (with_token sourcegraph_com "secret") root_context
                (mkURL "https" "" "" (Some "sourcegraph.com") None
                       (PathSegments [".api"; "graphql"]) None None)))
    "Authorization" = Some "token secret".
Proof.
  apply (authorization_header (answering not_found_response) kind_of
           "query { currentUser }" VUndefined (with_token sourcegraph_com "secret")
           root_context).
  cbv; auto.
Defined.

(** C9. A credential that is the empty string is falsy: the request then
    carries no Authorization header, only Accept and Content-Type. *)
Theorem empty_credential_is_absent tf js q v i c r :
  accessToken i = Some "" ->
  In (Fetched r) (effects (requestGraphQL tf js q v i c)) ->
  own_property (headers r) "Authorization" = None
  /\ headers r = [("Accept", "application/json"); ("Content-Type", "application/json")].
Proof.
  intros Htoken Hin. apply requestGraphQL_fetched in Hin.
  destruct Hin as (endpoint & _ & ->).
  cbn [request_of headers]. rewrite Htoken. split; reflexivity.
Qed.

Lemma empty_credential_is_absent_witness :
  own_property
    (headers (request_of kind_of "query { currentUser }" VUndefined
                (with_token sourcegraph_com "") root_context
                (mkURL "https" "" "" (Some "sourcegraph.com") None
                       (PathSegments [".api"; "graphql"]) None None)))
    "Authorization" = None.
Proof.
  apply (empty_credential_is_absent (answering not_found_response) kind_of
           "query { currentUser }" VUndefined (with_token sourcegraph_com "") root_context);
    [reflexivity | cbv; auto].
Defined.

(** ** Further properties: failures of the collaborators *)

Lemma run_request_shape tf js op i c :
  let child := ChildOf (operation_name op) (span c) in
  let inner := requestGraphQL tf js (document op) (variables_of op) i
                 {| span := child; tracer := tracer c |} in
  effects (run tf js op i c)
  = (SpanStarted child :: effects inner ++ [SpanFinished child])%list
  /\ settled (run tf js op i c)
     = match settled inner with
       | Resolved envelope =>
           match errors envelope with
           | Some (e :: es) => Rejected (graphql_error (e :: es))
           | _ => extract op i (data envelope)
           end
       | Rejected e => Rejected e
       end.
Proof.
  destruct op as [query|repoName rev|cloneUrl|]; cbn [run document variables_of operation_name].
  - apply (traced_shape _ _ _
             (fun s => requestGraphQL tf js _ _ i {| span := s; tracer := tracer c |})
             _ (fun e => extract (Search query) i (data e))).
    intros envelope. apply read_path_3.
  - apply (traced_shape _ _ _
             (fun s => requestGraphQL tf js _ _ i {| span := s; tracer := tracer c |})
             _ (fun e => extract (ResolveRev repoName rev) i (data e))).
    intros envelope. apply read_path_3.
  - apply (traced_shape _ _ _
             (fun s => requestGraphQL tf js _ _ i {| span := s; tracer := tracer c |})
             _ (fun e => extract (ResolveRepository cloneUrl) i (data e))).
    intros envelope. apply found_or_not_found.
  - apply (traced_shape _ _ _
             (fun s => requestGraphQL tf js _ _ i {| span := s; tracer := tracer c |})
             _ (fun e => extract QueryExtensions i (data e))).
    intros envelope. apply read_path_3.
Qed.

Lemma run_fetched_inner tf js op i c r :
  In (Fetched r) (effects (run tf js op i c)) ->
  In (Fetched r)
     (effects (requestGraphQL tf js (document op) (variables_of op) i
                 {| span := ChildOf (operation_name op) (span c); tracer := tracer c |})).
Proof.
  destruct (run_request_shape tf js op i c) as [He _]. cbn zeta in He. rewrite He.
  intros [Hin|Hin]; [discriminate|].
  apply in_app_or in Hin. destruct Hin as [Hin|[Hin|[]]]; [assumption|discriminate].
Qed.

Lemma requestGraphQL_rejected tf js q v i c r e :
  In (Fetched r) (effects (requestGraphQL tf js q v i c)) ->
  tf r = Rejected e ->
  requestGraphQL tf js q v i c = mkAsync [Fetched r] (Rejected e).
Proof.
  intros Hin Hr.
  destruct (requestGraphQL_fetched _ _ _ _ _ _ _ Hin) as (endpoint & Hurl & ->).
  rewrite requestGraphQL_cases, Hurl. cbn zeta. rewrite Hr. reflexivity.
Qed.

(** X1. When the transport rejects the request (a network failure),
    [requestGraphQL] and every operation reject with the transport's own
    error, unchanged, and no body is decoded. *)
Theorem transport_rejection_propagates tf js e i segments :
  (forall r, tf r = Rejected e) ->
  path (instanceUrl i) = PathSegments segments ->
  (forall q v c,
      settled (requestGraphQL tf js q v i c) = Rejected e
      /\ ~ In BodyDecoded (effects (requestGraphQL tf js q v i c)))
  /\ (forall op c,
      settled (run tf js op i c) = Rejected e
      /\ ~ In BodyDecoded (effects (run tf js op i c))).
Proof.
  intros Htf Hpath. split.
  - intros q v c. destruct (executor_fetches tf js q v i c _ Hpath) as [r Hin].
    rewrite (requestGraphQL_rejected _ _ _ _ _ _ _ _ Hin (Htf r)).
    cbn. split; [reflexivity|]. intros [H|[]]; discriminate.
  - intros op c. destruct (operation_fetches tf js op i c _ Hpath) as [r Hin].
    apply run_fetched_inner in Hin.
    destruct (run_request_shape tf js op i c) as [He Hs]. cbn zeta in He, Hs.
    rewrite He, Hs, (requestGraphQL_rejected _ _ _ _ _ _ _ _ Hin (Htf r)). cbn.
    split; [reflexivity|]. intros [H|[H|[H|[]]]]; discriminate.
Qed.

Lemma transport_rejection_propagates_witness :
  Forall (fun op =>
            settled (run (failing (Thrown "FetchError" "getaddrinfo ENOTFOUND")) kind_of op
                         (anonymous sourcegraph_com) root_context)
            = Rejected (Thrown "FetchError" "getaddrinfo ENOTFOUND"))
         sample_operations.
Proof.
  destruct (transport_rejection_propagates
              (failing (Thrown "FetchError" "getaddrinfo ENOTFOUND")) kind_of
              (Thrown "FetchError" "getaddrinfo ENOTFOUND")
              (anonymous sourcegraph_com) [""] (fun _ => eq_refl) eq_refl) as [_ Hops].
  for_each ltac:(apply Hops).
Defined.

(** X2. When the status is successful but decoding the body fails,
    [requestGraphQL] and every operation reject with the decoder's error. *)
Theorem decode_rejection_propagates tf js response e i segments :
  (forall r, tf r = Resolved response) ->
  path (instanceUrl i) = PathSegments segments ->
  ok response = true ->
  json response = Rejected e ->
  (forall q v c, settled (requestGraphQL tf js q v i c) = Rejected e)
  /\ (forall op c, settled (run tf js op i c) = Rejected e).
Proof.
  intros Htf Hpath Hok Hjson. split.
  - intros q v c.
    pose proof (executor_answered tf js q v i c _ _ Htf Hpath) as Hresp.
    destruct (requestGraphQL_responds _ _ _ _ _ _ _ Hresp) as [r ->].
    rewrite Hok. exact Hjson.
  - intros op c.
    pose proof (operation_answered tf js op i c _ _ Htf Hpath) as Hresp.
    destruct (run_responds _ _ _ _ _ _ Hresp) as [-> _].
    unfold settlement_for. rewrite Hok, Hjson. reflexivity.
Qed.

Lemma decode_rejection_propagates_witness :
  Forall (fun op =>
            settled (run (answering garbled_response) kind_of op
                         (anonymous sourcegraph_com) root_context)
            = Rejected (Thrown "SyntaxError" "Unexpected token < in JSON"))
         sample_operations.
Proof.
  destruct (decode_rejection_propagates (answering garbled_response) kind_of
              garbled_response (Thrown "SyntaxError" "Unexpected token < in JSON")
              (anonymous sourcegraph_com) [""] (fun _ => eq_refl) eq_refl eq_refl eq_refl)
    as [_ Hops].
  for_each ltac:(apply Hops).
Defined.

(** X3. When the instance URL cannot serve as a base (its path is opaque),
    the endpoint cannot be built: [requestGraphQL] and every operation
    reject with the URL constructor's error and hand nothing to the
    transport. *)
Theorem unusable_instance_url tf js i s :
  path (instanceUrl i) = OpaquePath s ->
  (forall q v c,
      settled (requestGraphQL tf js q v i c) = Rejected TypeError_invalid_URL
      /\ effects (requestGraphQL tf js q v i c) = [])
  /\ (forall op c,
      settled (run tf js op i c) = Rejected TypeError_invalid_URL
      /\ requests (effects (run tf js op i c)) = []).
Proof.
  intros Hpath.
  assert (Hexec : forall q v c,
             requestGraphQL tf js q v i c = mkAsync [] (Rejected TypeError_invalid_URL)).
  { intros q v c. rewrite requestGraphQL_cases. unfold new_URL_absolute_path.
    rewrite Hpath. reflexivity. }
  split.
  - intros q v c. rewrite Hexec. split; reflexivity.
  - intros op c. destruct (run_request_shape tf js op i c) as [He Hs].
    cbn zeta in He, Hs. rewrite He, Hs, Hexec. split; reflexivity.
Qed.

Lemma unusable_instance_url_witness :
  settled (run (answering (ok_response search_envelope)) kind_of
               (Search "foo") (anonymous mailto_admin) root_context)
  = Rejected TypeError_invalid_URL
  /\ requests (effects (run (answering (ok_response search_envelope)) kind_of
                           (Search "foo") (anonymous mailto_admin) root_context)) = [].
Proof.
  destruct (unusable_instance_url (answering (ok_response search_envelope)) kind_of
              (anonymous mailto_admin) "admin@example.com" eq_refl) as [_ Hops].
  apply Hops.
Defined.

(** ** Further properties: what goes over the wire *)

Lemma exchanges_app evs evs' :
  exchanges (evs ++ evs') = (exchanges evs ++ exchanges evs')%list.
Proof. apply filter_app. Qed.

Lemma requestGraphQL_log tf js q v i c :
  effects (requestGraphQL tf js q v i c) = []
  \/ exists r,
       effects (requestGraphQL tf js q v i c) = [Fetched r]
       \/ effects (requestGraphQL tf js q v i c) = [Fetched r; BodyDecoded].
Proof.
  rewrite requestGraphQL_cases.
  destruct (new_URL_absolute_path _ _) as [endpoint|e]; cbn zeta; [|left; reflexivity].
  right. exists (request_of js q v i c endpoint).
  destruct (tf _) as [response|e]; [destruct (ok response)|]; cbn; auto.
Qed.

(** X4. No operation retries or reads a body twice: whatever the transport
    does, the exchanges of [requestGraphQL] and of every operation with the
    transport are none at all, one request, or one request followed by one
    body decode. *)
Theorem single_round_trip tf js :
  (forall q v i c,
      effects (requestGraphQL tf js q v i c) = []
      \/ exists r,
           effects (requestGraphQL tf js q v i c) = [Fetched r]
           \/ effects (requestGraphQL tf js q v i c) = [Fetched r; BodyDecoded])
  /\ (forall op i c,
      exchanges (effects (run tf js op i c)) = []
      \/ exists r,
           exchanges (effects (run tf js op i c)) = [Fetched r]
           \/ exchanges (effects (run tf js op i c)) = [Fetched r; BodyDecoded]).
Proof.
  split; [intros; apply requestGraphQL_log|].
  intros op i c. destruct (run_request_shape tf js op i c) as [He _].
  cbn zeta in He. rewrite He.
  change (exchanges (SpanStarted ?s :: ?l)) with (exchanges l).
  rewrite exchanges_app. cbn [exchanges filter]. rewrite app_nil_r.
  destruct (requestGraphQL_log tf js (document op) (variables_of op) i
              {| span := ChildOf (operation_name op) (span c); tracer := tracer c |})
    as [-> | [r [-> | ->]]]; cbn; eauto.
Qed.

(** X5. The request of an operation is a POST to the endpoint of the
    instance whose body is the JSON text of its query document and its
    variables ([query] for search, [repoName] and [rev] for resolveRev,
    [cloneUrl] for resolveRepository, none for queryExtensions), traced with
    the caller's tracer and carrying the same headers as any request of the
    executor. *)
Theorem operation_request tf js op i c r :
  In (Fetched r) (effects (run tf js op i c)) ->
  method r = "POST"
  /\ new_URL_absolute_path [".api"; "graphql"] (instanceUrl i) = Resolved (url r)
  /\ body r = js (VObject [("query", VString (document op));
                           ("variables", variables_of op)])
  /\ request_tracer r = tracer c
  /\ own_property (headers r) "Accept" = Some "application/json"
  /\ own_property (headers r) "Content-Type" = Some "application/json"
  /\ own_property (headers r) "Authorization"
     = match accessToken i with
       | Some token => if token =? "" then None else Some ("token " ++ token)
       | None => None
       end.
Proof.
  intros Hin. apply run_fetched_inner, requestGraphQL_fetched in Hin.
  destruct Hin as (endpoint & Hurl & ->).
  cbn [request_of method url body request_tracer headers tracer].
  split; [reflexivity|]. split; [exact Hurl|].
  split; [destruct op; reflexivity|]. split; [reflexivity|].
  destruct (accessToken i) as [token|]; [destruct (token =? "")|];
    repeat split; reflexivity.
Qed.

Lemma operation_request_witness :
  body resolveRev_request
  = kind_of (VObject [("query", VString resolveRev_query);
                      ("variables",
                       VObject [("repoName", VString "github.com/a/b");
                                ("rev", VString "HEAD")])])
  /\ own_property (headers resolveRev_request) "Authorization" = Some "token secret".
Proof.
  destruct (operation_request (answering not_found_response) kind_of
              (ResolveRev "github.com/a/b" "HEAD") (with_token sourcegraph_com "secret")
              root_context resolveRev_request (or_intror (or_introl eq_refl)))
    as (_ & _ & Hbody & _ & _ & _ & Hauth).
  split; [exact Hbody | exact Hauth].
Defined.

(** ** Further properties: what an operation settles with *)

Lemma absent_leaf_read d parent k props :
  field_at d parent = Some (VObject props) ->
  own_property props k = None ->
  read_path d (parent ++ [k]) = Resolved VUndefined.
Proof.
  intros Hparent Habsent.
  rewrite read_path_app, (field_at_read_path _ _ _ Hparent). cbn.
  rewrite Habsent. reflexivity.
Qed.

(** X6. The last field of an extraction path is not checked: when its
    parent object is present but lacks it, the operation resolves with
    [undefined] instead of rejecting (so [resolveRev] and
    [resolveRepository] may resolve with a value that is not a string). *)
Theorem absent_leaf_resolves_undefined
    tf js op i c response envelope parent k props segments :
  (forall r, tf r = Resolved response) ->
  path (instanceUrl i) = PathSegments segments ->
  ok response = true ->
  json response = Resolved envelope ->
  no_errors envelope ->
  extraction_path op = (parent ++ [k])%list ->
  field_at (data envelope) parent = Some (VObject props) ->
  own_property props k = None ->
  settled (run tf js op i c) = Resolved VUndefined.
Proof.
  intros Htf Hbase Hok Hjson Herr Hpath Hparent Habsent.
  pose proof (operation_answered tf js op i c _ _ Htf Hbase) as Hresp.
  destruct (run_responds _ _ _ _ _ _ Hresp) as [-> _].
  rewrite (no_errors_settlement _ _ _ _ Hok Hjson Herr).
  pose proof (absent_leaf_read _ _ _ _ Hparent Habsent) as Hread.
  rewrite <- Hpath in Hread.
  destruct op; cbn [extract]; try exact Hread.
  change (extraction_path (ResolveRepository cloneUrl))
    with (["repository"] ++ ["name"])%list in Hpath.
  apply app_inj_tail in Hpath. destruct Hpath as [<- <-].
  cbn in Hparent. destruct (data envelope); try discriminate. cbn in Hparent |- *.
  destruct (own_property props0 "repository") as [x|]; [|discriminate].
  injection Hparent as ->. cbn. rewrite Habsent. reflexivity.
Qed.

Lemma absent_leaf_resolves_undefined_witness :
  Forall (fun op =>
            settled (run (answering (ok_response leafless_envelope)) kind_of op
                         (anonymous sourcegraph_com) root_context)
            = Resolved VUndefined)
         sample_operations.
Proof.
  apply Forall_cons; [|apply Forall_cons; [|apply Forall_cons; [|apply Forall_cons;
    [|apply Forall_nil]]]].
  - apply (absent_leaf_resolves_undefined _ _ (Search "foo") _ _
             (ok_response leafless_envelope) leafless_envelope
             ["search"; "results"] "results" [] [""]);
      solve [ reflexivity | left; reflexivity | intros r; reflexivity ].
  - apply (absent_leaf_resolves_undefined _ _ (ResolveRev "github.com/a/b" "HEAD") _ _
             (ok_response leafless_envelope) leafless_envelope
             ["repository"; "commit"] "oid" [] [""]);
      solve [ reflexivity | left; reflexivity | intros r; reflexivity ].
  - apply (absent_leaf_resolves_undefined _ _ (ResolveRepository "https://x/y.git") _ _
             (ok_response leafless_envelope) leafless_envelope
             ["repository"] "name" [("commit", VObject [])] [""]);
      solve [ reflexivity | left; reflexivity | intros r; reflexivity ].
  - apply (absent_leaf_resolves_undefined _ _ QueryExtensions _ _
             (ok_response leafless_envelope) leafless_envelope
             ["extensionRegistry"; "extensions"] "nodes" [] [""]);
      solve [ reflexivity | left; reflexivity | intros r; reflexivity ].
Defined.

(** X7. The errors of this module are three and no more: once the transport
    has answered and the body has decoded, an operation that rejects with
    an [Error] rejects with the transport error (status not successful),
    the GraphQL error (non-empty [errors]) or, for [resolveRepository]
    only, the Not Found error (no errors reported). *)
Theorem module_errors tf js op i c response envelope msg :
  responds tf (run tf js op i c) response ->
  json response = Resolved envelope ->
  settled (run tf js op i c) = Rejected (Error msg) ->
  (ok response = false
   /\ msg = decimal (status response) ++ " " ++ statusText response)
  \/ (ok response = true
      /\ exists es,
           errors envelope = Some es /\ es <> []
           /\ msg = "GraphQL Error:" ++ String.concat newline (map message es))
  \/ (ok response = true
      /\ no_errors envelope
      /\ exists cloneUrl,
           op = ResolveRepository cloneUrl
           /\ msg = "No repository found for clone URL " ++ cloneUrl
                    ++ " on instance " ++ href (instanceUrl i)).
Proof.
  intros Hresp Hjson.
  destruct (run_responds _ _ _ _ _ _ Hresp) as [-> _].
  unfold settlement_for. rewrite Hjson.
  destruct (ok response).
  - destruct (errors envelope) as [[|e es]|] eqn:Herr.
    + intros H. right. right. split; [reflexivity|]. split; [right; exact Herr|].
      destruct op as [| |cloneUrl|];
        try (exfalso; exact (read_path_never_Error _ _ _ H)).
      exists cloneUrl. split; [reflexivity|]. cbn [extract] in H.
      destruct (member (data envelope) "repository") as [found|e] eqn:Hm.
      * destruct (truthy found).
        -- exfalso. exact (read_path_never_Error _ _ _ H).
        -- injection H as <-. reflexivity.
      * apply member_rejects in Hm. subst e. discriminate.
    + intros H. right. left. split; [reflexivity|].
      exists (e :: es). split; [reflexivity|]. split; [discriminate|].
      injection H as <-. reflexivity.
    + intros H. right. right. split; [reflexivity|]. split; [left; exact Herr|].
      destruct op as [| |cloneUrl|];
        try (exfalso; exact (read_path_never_Error _ _ _ H)).
      exists cloneUrl. split; [reflexivity|]. cbn [extract] in H.
      destruct (member (data envelope) "repository") as [found|e] eqn:Hm.
      * destruct (truthy found).
        -- exfalso. exact (read_path_never_Error _ _ _ H).
        -- injection H as <-. reflexivity.
      * apply member_rejects in Hm. subst e. discriminate.
  - intros H. left. split; [reflexivity|]. injection H as <-. reflexivity.
Qed.

Lemma module_errors_witness :
  (ok (ok_response null_repository_envelope) = false
   /\ "No repository found for clone URL https://x/y.git on instance https://sourcegraph.com/"
      = decimal (status (ok_response null_repository_envelope)) ++ " "
        ++ statusText (ok_response null_repository_envelope))
  \/ (ok (ok_response null_repository_envelope) = true
      /\ exists es,
           errors null_repository_envelope = Some es /\ es <> []
           /\ "No repository found for clone URL https://x/y.git on instance https://sourcegraph.com/"
              = "GraphQL Error:" ++ String.concat newline (map message es))
  \/ (ok (ok_response null_repository_envelope) = true
      /\ no_errors null_repository_envelope
      /\ exists cloneUrl,
           ResolveRepository "https://x/y.git" = ResolveRepository cloneUrl
           /\ "No repository found for clone URL https://x/y.git on instance https://sourcegraph.com/"
              = "No repository found for clone URL " ++ cloneUrl
                ++ " on instance " ++ href (instanceUrl (anonymous sourcegraph_com))).
Proof.
  apply (module_errors (answering (ok_response null_repository_envelope)) kind_of
           (ResolveRepository "https://x/y.git") (anonymous sourcegraph_com) root_context
           (ok_response null_repository_envelope) null_repository_envelope);
    [answered | reflexivity | reflexivity].
Defined.

(** X8. An operation passes the answer through: its settlement is
    determined by the operation, the instance URL and the response.  The
    credential, the tracing context, the serializer and the rest of the
    transport have no part in it. *)
Theorem settlement_is_the_answer tf tf' js js' op i i' c c' response :
  responds tf (run tf js op i c) response ->
  responds tf' (run tf' js' op i' c') response ->
  instanceUrl i = instanceUrl i' ->
  settled (run tf js op i c) = settled (run tf' js' op i' c').
Proof.
  intros Hresp Hresp' Hurl.
  destruct (run_responds _ _ _ _ _ _ Hresp) as [-> _].
  destruct (run_responds _ _ _ _ _ _ Hresp') as [-> _].
  unfold settlement_for, extract, not_found_error. rewrite Hurl. reflexivity.
Qed.

Lemma settlement_is_the_answer_witness :
  settled (run (answering (ok_response search_envelope)) kind_of
               (Search "foo") (anonymous sourcegraph_com) root_context)
  = settled (run (answering (ok_response search_envelope)) (fun _ => "")
                 (Search "foo") (with_token sourcegraph_com "secret")
                 {| span := SpanRef 7; tracer := TracerRef 3 |}).
Proof.
  apply (settlement_is_the_answer _ _ _ _ _ _ _ _ _ (ok_response search_envelope));
    [answered | answered | reflexivity].
Defined.
